(** * Reviewer assignment: [.github/update_reviewers.py]

    A shallow embedding of the script that requests reviewers for a pull
    request from its labels.  Python's [set] objects are finite sets of
    strings ([gset string]), the YAML configuration is a finite map from
    label names to lists of entries, and the calls on the platform client
    and on the standard streams are recorded in a trace of events. *)

From Stdlib Require Import Ascii String.
From stdpp Require Import gmap strings list pretty.

Open Scope string_scope.

#[local] Set Warnings "-clear-no-such-hyp".

(** ** Strings *)

(** [s.startswith("@")] *)
Definition startswith_at (s : string) : bool :=
  match s with
  | String c _ => Ascii.eqb c "@"%char
  | EmptyString => false
  end.

(** [s[1:]]: the slice never raises, and is empty on the empty string. *)
Definition slice_from_1 (s : string) : string :=
  match s with
  | String _ rest => rest
  | EmptyString => EmptyString
  end.

(** ** The two sets being built: [(reviewers, team_reviewers)] *)

Definition sets : Type := gset string * gset string.

(** Body of the loop of [add_reviewers] (lines 15-18): [set.add] on one of
    the two sets, chosen by the first character. *)
Definition add_reviewer (st : sets) (reviewer : string) : sets :=
  if startswith_at reviewer
  then (st.1, {[ slice_from_1 reviewer ]} ∪ st.2)
  else ({[ reviewer ]} ∪ st.1, st.2).

(** [add_reviewers(reviewers, team_reviewers, new_entries)] (lines 11-18).
    The source mutates the two sets it is handed; here the new pair is
    returned. *)
Definition add_reviewers (st : sets) (new_entries : list string) : sets :=
  foldl add_reviewer st new_entries.

(** ** The selection of [update_reviewers] (lines 29-40) *)

Section selection.
Variable config : gmap string (list string).

(** Lines 33-34: [if label.name in config: add_reviewers(..., config[label.name])]. *)
Definition merge_label (st : sets) (label : string) : sets :=
  match config !! label with
  | Some entries => add_reviewers st entries
  | None => st
  end.

(** Lines 29-34: both sets start empty, then the loop over the labels. *)
Definition merge_labels (labels : list string) : sets :=
  foldl merge_label (∅, ∅) labels.

(** Lines 36-37. *)
Definition merge_default (st : sets) : sets :=
  match config !! "default" with
  | Some entries => add_reviewers st entries
  | None => st
  end.

(** Both sets as they stand after line 37. *)
Definition merged_sets (labels : list string) : sets :=
  merge_default (merge_labels labels).

(** Lines 39-40: [if author in reviewers: reviewers.remove(author)]. *)
Definition exclude_author (author : string) (st : sets) : sets :=
  if decide (author ∈ st.1) then (st.1 ∖ {[ author ]}, st.2) else st.

(** Lines 29-40. *)
Definition select_reviewers (labels : list string) (author : string) : sets :=
  exclude_author author (merged_sets labels).

(** An entry of the configuration that the selection reads: it is listed
    under a key that is a label of the pull request, or under "default". *)
Definition merged_entry (labels : list string) (e : string) : Prop :=
  (∃ l es, l ∈ labels ∧ config !! l = Some es ∧ e ∈ es)
  ∨ (∃ es, config !! "default" = Some es ∧ e ∈ es).
End selection.

(** ** The outside world: streams, exceptions, the platform client *)

(** What one run does to the outside, in order. *)
Inductive event : Type :=
  | Stdout (line : string)
  | Stderr (text : string)
  | ReviewRequest (reviewers team_reviewers : list string).

(** The exceptions that can travel through the script.  A
    [GithubException] carries what [str(e)] gives. *)
Inductive exn : Type :=
  | TypeError
  | ValueError
  | GithubException (detail : string).

(** A computation reads the trace so far and gives back a value or a raised
    exception, with the trace extended by what it did. *)
Definition io (A : Type) : Type := list event → (exn + A) * list event.

#[local] Instance io_ret : MRet io := λ A a w, (inr a, w).

#[local] Instance io_bind : MBind io := λ A B k m w,
  match m w with
  | (inr a, w') => k a w'
  | (inl e, w') => (inl e, w')
  end.

Definition raise {A : Type} (e : exn) : io A := λ w, (inl e, w).

Definition emit (ev : event) : io unit := λ w, (inr tt, (w ++ [ev])%list).

(** [try: body except GithubException as e: handler(e)]: any other
    exception goes on to the caller. *)
Definition try_except_github {A : Type}
    (body : io A) (handler : string → io A) : io A := λ w,
  match body w with
  | (inl (GithubException detail), w') => handler detail w'
  | r => r
  end.

(** [sys.stderr.write(text)] *)
Definition stderr_write (text : string) : io unit := emit (Stderr text).

(** [sys.stderr.writable(args...)].  The method of the text stream takes no
    argument and answers whether the stream can be written to; handed an
    argument, the call raises [TypeError] and nothing reaches the stream. *)
Definition stderr_writable (args : list string) : io bool :=
  match args with
  | [] => mret true
  | _ :: _ => raise TypeError
  end.

(** [print(line)] *)
Definition print (line : string) : io unit := emit (Stdout line).

(** What a lookup on the platform client gives: the value it returns, or
    the [GithubException] it raises, as what [str(e)] gives. *)
Inductive lookup (A : Type) : Type :=
  | Returns (a : A)
  | Raises (detail : string).

Arguments Returns {A} a.
Arguments Raises {A} detail.

(** The pull request as the platform client hands it over: the author's
    login, the names of the labels in the order received, and the answer
    of the platform to a review request ([Some detail] when the client
    raises a [GithubException], [None] when the request goes through). *)
Record PullRequest : Type := {
  user_login : string;
  labels : list string;
  review_request_answer : list string → list string → option string;
}.

(** [repo.get_pull(pr_id)].  For a pull request that does not exist the
    client raises; [Returns None] is a falsy result, which lines 24-26
    provide for. *)
Record Repository : Type := {
  get_pull : Z → lookup (option PullRequest);
}.

(** [pull_request.create_review_request(reviewers, team_reviewers)]: the
    call is recorded, then fails or not as the platform decides. *)
Definition create_review_request (pull_request : PullRequest)
    (reviewers team_reviewers : list string) : io unit := λ w,
  let w' := (w ++ [ReviewRequest reviewers team_reviewers])%list in
  match review_request_answer pull_request reviewers team_reviewers with
  | Some detail => (inl (GithubException detail), w')
  | None => (inr tt, w')
  end.

(** What the script needs of the machine it runs on:
    [Github(token).get_repo(repo_path)], which raises for a repository that
    does not resolve ([Returns None] is a falsy result, which lines 68-70
    provide for); [Path(p).exists()]; and what the file at a path loads as,
    for a file that loads as a mapping from strings to lists of strings (no
    other file is modelled). *)
Record Platform : Type := {
  get_repo : string → string → lookup (option Repository);
  path_exists : string → bool;
  yaml_safe_load : string → gmap string (list string);
}.

Definition newline : string := String "010"%char EmptyString.

(** ** The script *)

Definition cannot_assign_message (pr_id : Z) (detail : string) : string :=
  "Cannot assign review request for PR #" +:+ pretty pr_id +:+ ": "
  +:+ detail +:+ newline.

Definition unknown_pr_message (pr_id : Z) : string :=
  "Unknown PR #" +:+ pretty pr_id +:+ newline.

Section script.
(** Python's [str] of a list of strings, [int] of a string ([None] where
    it raises [ValueError]) and [str] of a [Path]. *)
Variable str_of_list : list string → string.
Variable int_of_str : string → option Z.
Variable str_of_path : string → string.
(** What the interpreter prints for an exception that nothing catches. *)
Variable traceback : exn → string.

Definition attempt_message (reviewers team_reviewers : list string) : string :=
  "Attempting to assign reviewers (" +:+ str_of_list reviewers
  +:+ ") and team_reviewers (" +:+ str_of_list team_reviewers +:+ ")".

(** [update_reviewers(config, repo, pr_id)] (lines 21-52).  [list(s)] on a
    set is [elements s]: some enumeration without repetition. *)
Definition update_reviewers (config : gmap string (list string))
    (repo : Repository) (pr_id : Z) : io Z :=
  match get_pull repo pr_id with
  | Raises detail => raise (GithubException detail)
  | Returns None =>
      _ ← stderr_writable [unknown_pr_message pr_id];
      mret 1%Z
  | Returns (Some pull_request) =>
      let pull_request_author := user_login pull_request in
      let selected :=
        select_reviewers config (labels pull_request) pull_request_author in
      try_except_github
        (let reviewers := elements selected.1 in
         let team_reviewers := elements selected.2 in
         _ ← print (attempt_message reviewers team_reviewers);
         _ ← create_review_request pull_request reviewers team_reviewers;
         mret 0%Z)
        (λ e,
           _ ← stderr_write (cannot_assign_message pr_id e);
           mret 1%Z)
  end.

(** The block under [if __name__ == "__main__"] (lines 55-79); the value
    is the status handed to [sys.exit]. *)
Definition main (env : Platform) (argv : list string) : io Z :=
  match argv with
  | [_; token; repo_path; pr_id_arg; config_arg] =>
      match int_of_str pr_id_arg with
      | None => raise ValueError
      | Some pr_id =>
          match get_repo env token repo_path with
          | Raises detail => raise (GithubException detail)
          | Returns None =>
              _ ← stderr_write ("Repository not found!" +:+ newline);
              mret 1%Z
          | Returns (Some repo) =>
              if path_exists env config_arg
              then update_reviewers (yaml_safe_load env config_arg) repo pr_id
              else
                _ ← stderr_write
                      ("Config " +:+ String "034"%char (str_of_path config_arg)
                       +:+ String "034"%char (" not found!" +:+ newline));
                mret 1%Z
          end
      end
  | _ =>
      _ ← stderr_write
            ("usage: <token> <repo_path> <pr_id> <config_path>" +:+ newline);
      mret 1%Z
  end.

(** The script as a process.  [sys.exit(status)] ends it with that status;
    an exception that nothing catches makes the interpreter write its
    traceback to the error stream and end the process with status 1. *)
Definition process (env : Platform) (argv : list string) (w : list event)
    : Z * list event :=
  match main env argv w with
  | (inr status, w') => (status, w')
  | (inl e, w') => (1%Z, (w' ++ [Stderr (traceback e)])%list)
  end.
End script.

(** The review requests that a trace holds. *)
Definition review_requests (w : list event) : list (list string * list string) :=
  omap (λ ev, match ev with ReviewRequest r t => Some (r, t) | _ => None end) w.

(** What a trace wrote to the error stream. *)
Definition stderr_writes (w : list event) : list string :=
  omap (λ ev, match ev with Stderr s => Some s | _ => None end) w.

(** The lists handed to the platform for a pull request (lines 43-44). *)
Definition requested_reviewers (config : gmap string (list string))
    (pr : PullRequest) : list string :=
  elements (select_reviewers config (labels pr) (user_login pr)).1.

Definition requested_teams (config : gmap string (list string))
    (pr : PullRequest) : list string :=
  elements (select_reviewers config (labels pr) (user_login pr)).2.

(** [needle in text] on strings. *)
Definition contains (needle text : string) : Prop :=
  ∃ before after, text = before +:+ needle +:+ after.

(** How often a name is listed. *)
Definition occurrences (x : string) (l : list string) : nat :=
  count_occ String.string_dec l x.

(** An entry that two different matching labels name, or a matching label
    and "default". *)
Definition named_twice (config : gmap string (list string))
    (labels : list string) (e : string) : Prop :=
  (∃ l1 l2 es1 es2,
      l1 ≠ l2 ∧ l1 ∈ labels ∧ l2 ∈ labels
      ∧ config !! l1 = Some es1 ∧ config !! l2 = Some es2
      ∧ e ∈ es1 ∧ e ∈ es2)
  ∨ (∃ l es ds,
      l ∈ labels ∧ config !! l = Some es ∧ config !! "default" = Some ds
      ∧ e ∈ es ∧ e ∈ ds).

(** ** The selection again, with the operations that can raise

    Indexing a dictionary with a key it does not have, and removing from a
    set a member it does not have, raise [KeyError]; lines 33-40 guard each
    of them with a membership test.  Here the operations may fail ([None]
    stands for [KeyError]) and the guards are kept as the source has
    them. *)

(** [key in d] *)
Definition dict_contains (d : gmap string (list string)) (key : string) : bool :=
  bool_decide (is_Some (d !! key)).

(** [d[key]] *)
Definition dict_getitem (d : gmap string (list string)) (key : string)
    : option (list string) :=
  d !! key.

(** [s.remove(x)] *)
Definition set_remove (s : gset string) (x : string) : option (gset string) :=
  if decide (x ∈ s) then Some (s ∖ {[ x ]}) else None.

(** Lines 33-34, and 36-37 with the key "default". *)
Definition merge_key_checked (config : gmap string (list string))
    (st : sets) (key : string) : option sets :=
  if dict_contains config key
  then entries ← dict_getitem config key; Some (add_reviewers st entries)
  else Some st.

(** Lines 32-34. *)
Fixpoint label_loop_checked (config : gmap string (list string))
    (st : sets) (labels : list string) : option sets :=
  match labels with
  | [] => Some st
  | label :: rest =>
      st' ← merge_key_checked config st label;
      label_loop_checked config st' rest
  end.

(** Lines 29-40. *)
Definition select_reviewers_checked (config : gmap string (list string))
    (labels : list string) (author : string) : option sets :=
  st ← label_loop_checked config (∅, ∅) labels;
  st ← merge_key_checked config st "default";
  if decide (author ∈ st.1)
  then reviewers ← set_remove st.1 author; Some (reviewers, st.2)
  else Some st.

(** ** Sample inputs *)

(** The configuration of the first scenario of the specification. *)
Definition sample_config : gmap string (list string) :=
  {[ "bug" := ["alice"; "@core-team"]; "default" := ["bob"] ]}.

(** A configuration in which two labels name the same login, and a label
    and "default" the same team. *)
Definition overlapping_config : gmap string (list string) :=
  {[ "bug" := ["carol"; "@core-team"];
     "docs" := ["carol"];
     "default" := ["@core-team"] ]}.

(** Pull request 7 of the sample repository: by alice, labelled "bug"; the
    platform answers every review request with [answer]. *)
Definition sample_pull_request (answer : option string) : PullRequest :=
  {| user_login := "alice";
     labels := ["bug"];
     review_request_answer := λ _ _, answer |}.

Definition sample_repository (answer : option string) : Repository :=
  {| get_pull := λ n,
       if decide (n = 7%Z) then Returns (Some (sample_pull_request answer))
       else Raises "404 Not Found" |}.

Definition sample_platform (answer : option string) : Platform :=
  {| get_repo := λ _ _, Returns (Some (sample_repository answer));
     path_exists := λ _, true;
     yaml_safe_load := λ _, sample_config |}.

(** Pull request 4 of a repository whose labels the empty configuration
    does not map (the fourth scenario). *)
Definition unmapped_pull_request : PullRequest :=
  {| user_login := "frank";
     labels := ["bug"];
     review_request_answer := λ _ _, None |}.

Definition unmapped_repository : Repository :=
  {| get_pull := λ _, Returns (Some unmapped_pull_request) |}.

(** Stand-ins for Python's conversions, enough for the sample runs. *)
Definition sample_str_of_list (l : list string) : string :=
  "[" +:+ String.concat ", " l +:+ "]".

Definition sample_int_of_str (s : string) : option Z :=
  if decide (s = "7") then Some 7%Z
  else if decide (s = "8") then Some 8%Z
  else None.

Definition sample_str_of_path (s : string) : string := s.

Definition sample_traceback (e : exn) : string :=
  "Traceback (most recent call last):" +:+ newline +:+
  match e with
  | TypeError => "TypeError"
  | ValueError => "ValueError"
  | GithubException detail => "github.GithubException.GithubException: " +:+ detail
  end +:+ newline.

(** ** Scenarios of the specification *)

(** First scenario: configuration bug: [alice, @core-team], default:
    [bob]; label bug; author alice.  The reviewers are bob alone, the teams
    core-team. *)
Example scenario_1 :
  select_reviewers
    {[ "bug" := ["alice"; "@core-team"]; "default" := ["bob"] ]}
    ["bug"] "alice"
  = ({[ "bob" ]}, {[ "core-team" ]}).
Proof. by vm_compute. Qed.

(** Second scenario: configuration default: [carol]; no label; author
    dave.  The reviewers are carol alone, and there is no team. *)
Example scenario_2 :
  select_reviewers {[ "default" := ["carol"] ]} [] "dave" = ({[ "carol" ]}, ∅).
Proof. by vm_compute. Qed.

(** Third scenario: configuration feature: [@qa]; labels feature and
    bug, the second not a key; author eve.  There is no reviewer, and the
    teams are qa alone. *)
Example scenario_3 :
  select_reviewers {[ "feature" := ["@qa"] ]} ["feature"; "bug"] "eve"
  = (∅, {[ "qa" ]}).
Proof. by vm_compute. Qed.

(** Fourth scenario: the empty configuration selects nobody. *)
Example scenario_4 : select_reviewers ∅ ["bug"] "frank" = (∅, ∅).
Proof. by vm_compute. Qed.

(** * What the selection computes *)

(** ** One entry, then a list of entries *)

Lemma add_reviewer_reviewers (st : sets) (e x : string) :
  x ∈ (add_reviewer st e).1 ↔ x ∈ st.1 ∨ (x = e ∧ startswith_at e = false).
Proof.
  unfold add_reviewer. destruct (startswith_at e); simpl.
  - naive_solver.
  - rewrite elem_of_union, elem_of_singleton. naive_solver.
Qed.

Lemma add_reviewer_teams (st : sets) (e x : string) :
  x ∈ (add_reviewer st e).2
  ↔ x ∈ st.2 ∨ (startswith_at e = true ∧ x = slice_from_1 e).
Proof.
  unfold add_reviewer. destruct (startswith_at e); simpl.
  - rewrite elem_of_union, elem_of_singleton. naive_solver.
  - naive_solver.
Qed.

Lemma add_reviewers_reviewers (es : list string) (st : sets) (x : string) :
  x ∈ (add_reviewers st es).1 ↔ x ∈ st.1 ∨ (x ∈ es ∧ startswith_at x = false).
Proof.
  unfold add_reviewers. revert st.
  induction es as [|e es IH]; intros st; simpl.
  - rewrite elem_of_nil. naive_solver.
  - rewrite IH, add_reviewer_reviewers, elem_of_cons. naive_solver.
Qed.

Lemma add_reviewers_teams (es : list string) (st : sets) (x : string) :
  x ∈ (add_reviewers st es).2
  ↔ x ∈ st.2 ∨ ∃ e, e ∈ es ∧ startswith_at e = true ∧ x = slice_from_1 e.
Proof.
  unfold add_reviewers. revert st.
  induction es as [|e es IH]; intros st; simpl.
  - setoid_rewrite elem_of_nil. naive_solver.
  - rewrite IH, add_reviewer_teams. setoid_rewrite elem_of_cons. naive_solver.
Qed.

(** ** The loop over the labels, from any pair of sets *)

Section selection_facts.
Variable config : gmap string (list string).

Lemma merge_label_reviewers (st : sets) (l x : string) :
  x ∈ (merge_label config st l).1
  ↔ x ∈ st.1 ∨ ∃ es, config !! l = Some es ∧ x ∈ es ∧ startswith_at x = false.
Proof.
  unfold merge_label. destruct (config !! l) as [es|].
  - rewrite add_reviewers_reviewers. naive_solver.
  - naive_solver.
Qed.

Lemma merge_label_teams (st : sets) (l x : string) :
  x ∈ (merge_label config st l).2
  ↔ x ∈ st.2
    ∨ ∃ es e, config !! l = Some es ∧ e ∈ es
              ∧ startswith_at e = true ∧ x = slice_from_1 e.
Proof.
  unfold merge_label. destruct (config !! l) as [es|].
  - rewrite add_reviewers_teams. naive_solver.
  - naive_solver.
Qed.

Lemma label_loop_reviewers (ls : list string) (st : sets) (x : string) :
  x ∈ (foldl (merge_label config) st ls).1
  ↔ x ∈ st.1
    ∨ ∃ l es, l ∈ ls ∧ config !! l = Some es
              ∧ x ∈ es ∧ startswith_at x = false.
Proof.
  revert st. induction ls as [|l ls IH]; intros st; simpl.
  - setoid_rewrite elem_of_nil. naive_solver.
  - rewrite IH, merge_label_reviewers. setoid_rewrite elem_of_cons.
    naive_solver.
Qed.

Lemma label_loop_teams (ls : list string) (st : sets) (x : string) :
  x ∈ (foldl (merge_label config) st ls).2
  ↔ x ∈ st.2
    ∨ ∃ l es e, l ∈ ls ∧ config !! l = Some es ∧ e ∈ es
                ∧ startswith_at e = true ∧ x = slice_from_1 e.
Proof.
  revert st. induction ls as [|l ls IH]; intros st; simpl.
  - setoid_rewrite elem_of_nil. naive_solver.
  - rewrite IH, merge_label_teams. setoid_rewrite elem_of_cons.
    naive_solver.
Qed.

(** ** The sets after line 37, and after line 40 *)

Lemma merged_sets_reviewers (ls : list string) (x : string) :
  x ∈ (merged_sets config ls).1
  ↔ merged_entry config ls x ∧ startswith_at x = false.
Proof.
  unfold merged_sets, merge_default, merge_labels, merged_entry.
  destruct (config !! "default") as [ds|].
  - rewrite add_reviewers_reviewers, label_loop_reviewers; simpl.
    rewrite elem_of_empty. naive_solver.
  - rewrite label_loop_reviewers; simpl. rewrite elem_of_empty. naive_solver.
Qed.

Lemma merged_sets_teams (ls : list string) (x : string) :
  x ∈ (merged_sets config ls).2
  ↔ ∃ e, merged_entry config ls e
         ∧ startswith_at e = true ∧ x = slice_from_1 e.
Proof.
  unfold merged_sets, merge_default, merge_labels, merged_entry.
  destruct (config !! "default") as [ds|].
  - rewrite add_reviewers_teams, label_loop_teams; simpl.
    rewrite elem_of_empty. naive_solver.
  - rewrite label_loop_teams; simpl. rewrite elem_of_empty. naive_solver.
Qed.

Lemma exclude_author_reviewers (author : string) (st : sets) (x : string) :
  x ∈ (exclude_author author st).1 ↔ x ∈ st.1 ∧ x ≠ author.
Proof.
  unfold exclude_author. case_decide; simpl.
  - rewrite elem_of_difference, elem_of_singleton. naive_solver.
  - naive_solver.
Qed.

Lemma exclude_author_teams (author : string) (st : sets) :
  (exclude_author author st).2 = st.2.
Proof. unfold exclude_author. by case_decide. Qed.

Lemma select_reviewers_reviewers (ls : list string) (author x : string) :
  x ∈ (select_reviewers config ls author).1
  ↔ merged_entry config ls x ∧ startswith_at x = false ∧ x ≠ author.
Proof.
  unfold select_reviewers.
  rewrite exclude_author_reviewers, merged_sets_reviewers. naive_solver.
Qed.

Lemma select_reviewers_teams (ls : list string) (author x : string) :
  x ∈ (select_reviewers config ls author).2
  ↔ ∃ e, merged_entry config ls e
         ∧ startswith_at e = true ∧ x = slice_from_1 e.
Proof.
  unfold select_reviewers.
  rewrite exclude_author_teams. apply merged_sets_teams.
Qed.
End selection_facts.

(** The output only depends on which labels are present, not on their order
    or on repetitions. *)
Lemma select_reviewers_labels_ext (config : gmap string (list string))
    (ls ls' : list string) (author : string) :
  (∀ l, l ∈ ls ↔ l ∈ ls') →
  select_reviewers config ls author = select_reviewers config ls' author.
Proof.
  intros Hls.
  assert (∀ e, merged_entry config ls e ↔ merged_entry config ls' e) as Hm.
  { intros e. unfold merged_entry. setoid_rewrite Hls. done. }
  destruct (select_reviewers config ls author) as [r t] eqn:E.
  destruct (select_reviewers config ls' author) as [r' t'] eqn:E'.
  f_equal; apply set_eq; intros x.
  - change r with (r, t).1. change r' with (r', t').1. rewrite <- E, <- E'.
    rewrite !select_reviewers_reviewers, Hm. done.
  - change t with (r, t).2. change t' with (r', t').2. rewrite <- E, <- E'.
    rewrite !select_reviewers_teams. setoid_rewrite Hm. done.
Qed.

(** More labels, more entries read. *)
Lemma merged_entry_mono (config : gmap string (list string))
    (ls ls' : list string) (e : string) :
  (∀ l, l ∈ ls → l ∈ ls') →
  merged_entry config ls e → merged_entry config ls' e.
Proof. unfold merged_entry. naive_solver. Qed.

(** [list(s)] lists each member of the set once. *)
Lemma occurrences_elements (X : gset string) (x : string) :
  occurrences x (elements X) = if decide (x ∈ X) then 1 else 0.
Proof.
  unfold occurrences. case_decide as Hx.
  - apply NoDup_count_occ'; [apply NoDup_ListNoDup, NoDup_elements|].
    apply list_elem_of_In, elem_of_elements, Hx.
  - apply count_occ_not_In. intros Hin. apply Hx.
    by apply elem_of_elements, list_elem_of_In.
Qed.

(** * What a run does *)

Section script_facts.
Variable str_of_list : list string → string.
Variable int_of_str : string → option Z.
Variable str_of_path : string → string.

(** Line 25 raises before line 26 is reached. *)
Lemma update_reviewers_unresolved (config : gmap string (list string))
    (repo : Repository) (pr_id : Z) (w : list event) :
  get_pull repo pr_id = Returns None →
  update_reviewers str_of_list config repo pr_id w = (inl TypeError, w).
Proof. intros H. unfold update_reviewers. by rewrite H. Qed.

(** An exception of line 22 is outside the [try] of lines 42-52. *)
Lemma update_reviewers_lookup_raises (config : gmap string (list string))
    (repo : Repository) (pr_id : Z) (detail : string) (w : list event) :
  get_pull repo pr_id = Raises detail →
  update_reviewers str_of_list config repo pr_id w
  = (inl (GithubException detail), w).
Proof. intros H. unfold update_reviewers. by rewrite H. Qed.

Lemma update_reviewers_resolved (config : gmap string (list string))
    (repo : Repository) (pr_id : Z) (pr : PullRequest) (w : list event) :
  get_pull repo pr_id = Returns (Some pr) →
  update_reviewers str_of_list config repo pr_id w =
    let rs := requested_reviewers config pr in
    let ts := requested_teams config pr in
    match review_request_answer pr rs ts with
    | Some detail =>
        (inr 1%Z,
         (w ++ [Stdout (attempt_message str_of_list rs ts);
                ReviewRequest rs ts;
                Stderr (cannot_assign_message pr_id detail)])%list)
    | None =>
        (inr 0%Z,
         (w ++ [Stdout (attempt_message str_of_list rs ts);
                ReviewRequest rs ts])%list)
    end.
Proof.
  intros H. unfold update_reviewers, requested_reviewers, requested_teams.
  rewrite H. cbv zeta.
  unfold try_except_github, mbind, io_bind, mret, io_ret, print,
    stderr_write, emit, create_review_request.
  destruct (review_request_answer pr _ _) as [detail|];
    by rewrite <- !app_assoc.
Qed.

(** With four arguments, a numeric identifier, a repository that
    resolves and a configuration file that exists, the process ends with
    what [update_reviewers] gives. *)
Lemma main_runs_update_reviewers (env : Platform)
    (script token repo_path pr_id_arg config_arg : string)
    (pr_id : Z) (repo : Repository) (w : list event) :
  int_of_str pr_id_arg = Some pr_id →
  get_repo env token repo_path = Returns (Some repo) →
  path_exists env config_arg = true →
  main str_of_list int_of_str str_of_path env
    [script; token; repo_path; pr_id_arg; config_arg] w
  = update_reviewers str_of_list (yaml_safe_load env config_arg) repo pr_id w.
Proof. intros Hi Hr Hp. unfold main. by rewrite Hi, Hr, Hp. Qed.
End script_facts.

(** * The statements of the specification *)

(** C1.  For every configuration, list of labels and author, the set of
    individual reviewers that the selection returns does not hold the
    author, however many labels or default entries name the author; hence
    the list handed to the platform never lists the author of the pull
    request. *)
Theorem author_never_selected (config : gmap string (list string))
    (labels : list string) (author : string) (pr : PullRequest) :
  (author ∉ (select_reviewers config labels author).1)
  ∧ (user_login pr ∉ requested_reviewers config pr).
Proof.
  split.
  - rewrite select_reviewers_reviewers. naive_solver.
  - unfold requested_reviewers.
    rewrite elem_of_elements, select_reviewers_reviewers. naive_solver.
Qed.

(** C2, counterexample to the statement as the specification has it:
    with the entries "@bob" and "bob" under "default", the entry "@bob" is
    read and begins with the sigil, and its name without the sigil is in
    [reviewers]. *)
Lemma team_name_also_in_reviewers :
  merged_entry {[ "default" := ["@bob"; "bob"] ]} [] "@bob"
  ∧ startswith_at "@bob" = true
  ∧ slice_from_1 "@bob"
      ∈ (select_reviewers {[ "default" := ["@bob"; "bob"] ]} [] "alice").1.
Proof.
  split; [|split].
  - right. exists ["@bob"; "bob"]. split; [done|]. apply list_elem_of_here.
  - done.
  - by vm_compute.
Qed.

(** C2, amended.  For every entry that the selection reads: if its first
    character is the sigil, the entry minus the sigil is added to
    [team_reviewers], the entry leaves [reviewers] as it was, and the entry
    with its sigil is never in [reviewers]; the name without the sigil is in
    [reviewers] exactly when the selection also reads that name as an entry
    of its own, without sigil, and it is not the author.  Otherwise the
    entry is added verbatim to [reviewers] and leaves [team_reviewers] as it
    was. *)
Theorem entry_classified_by_sigil (config : gmap string (list string))
    (labels : list string) (author e : string) :
  merged_entry config labels e →
  (let out := select_reviewers config labels author in
   (startswith_at e = true →
     (∀ st, add_reviewer st e = (st.1, {[ slice_from_1 e ]} ∪ st.2))
     ∧ slice_from_1 e ∈ out.2
     ∧ (e ∉ out.1)
     ∧ (slice_from_1 e ∈ out.1
        ↔ merged_entry config labels (slice_from_1 e)
          ∧ startswith_at (slice_from_1 e) = false
          ∧ slice_from_1 e ≠ author))
   ∧ (startswith_at e = false →
      (∀ st, add_reviewer st e = ({[ e ]} ∪ st.1, st.2))
      ∧ (e ∈ out.1 ↔ e ≠ author))).
Proof.
  intros Hm out. subst out. split; intros Hs.
  - split; [|split; [|split]].
    + intros st. unfold add_reviewer. by rewrite Hs.
    + rewrite select_reviewers_teams. eauto.
    + rewrite select_reviewers_reviewers. intros (_ & Hf & _). congruence.
    + apply select_reviewers_reviewers.
  - split.
    + intros st. unfold add_reviewer. by rewrite Hs.
    + rewrite select_reviewers_reviewers. naive_solver.
Qed.

Lemma entry_classified_by_sigil_witness :
  merged_entry sample_config ["bug"] "@core-team"
  ∧ "core-team" ∈ (select_reviewers sample_config ["bug"] "alice").2.
Proof.
  assert (merged_entry sample_config ["bug"] "@core-team") as Hm.
  { left. exists "bug", ["alice"; "@core-team"].
    split; [apply list_elem_of_here|].
    split; [done|]. apply list_elem_of_further, list_elem_of_here. }
  split; [exact Hm|].
  apply (entry_classified_by_sigil sample_config ["bug"] "alice" "@core-team" Hm).
  reflexivity.
Defined.

(** C3.  When the configuration has a "default" key, its entries are merged
    into the two sets by the same rule as the entries of a label
    ([add_reviewers]), whatever the labels are and also when there is none:
    every default entry with the sigil gives its name to [team_reviewers],
    every other default entry is put in [reviewers], and what is returned
    is these sets after the self-review exclusion. *)
Theorem default_entries_always_merged (config : gmap string (list string))
    (ds labels : list string) (author : string) :
  config !! "default" = Some ds →
  merged_sets config labels = add_reviewers (merge_labels config labels) ds
  ∧ merged_sets config [] = add_reviewers (∅, ∅) ds
  ∧ select_reviewers config labels author
    = exclude_author author (add_reviewers (merge_labels config labels) ds)
  ∧ (∀ e, e ∈ ds →
      if startswith_at e
      then slice_from_1 e ∈ (merged_sets config labels).2
           ∧ slice_from_1 e ∈ (select_reviewers config labels author).2
      else e ∈ (merged_sets config labels).1
           ∧ (e ≠ author → e ∈ (select_reviewers config labels author).1)).
Proof.
  intros Hd.
  assert (∀ ls, merged_sets config ls = add_reviewers (merge_labels config ls) ds)
    as Heq.
  { intros ls. unfold merged_sets, merge_default. by rewrite Hd. }
  split; [apply Heq|]. split; [apply (Heq [])|].
  split; [unfold select_reviewers; by rewrite Heq|].
  intros e He.
  assert (merged_entry config labels e) as Hm by (right; eauto).
  destruct (startswith_at e) eqn:Hs.
  - rewrite select_reviewers_teams, merged_sets_teams. eauto 10.
  - rewrite select_reviewers_reviewers, merged_sets_reviewers. eauto.
Qed.

Lemma default_entries_always_merged_witness :
  ({[ "default" := ["carol"] ]} : gmap string (list string)) !! "default"
    = Some ["carol"]
  ∧ "carol" ∈ (select_reviewers {[ "default" := ["carol"] ]} [] "dave").1.
Proof.
  assert (({[ "default" := ["carol"] ]} : gmap string (list string)) !! "default"
          = Some ["carol"]) as Hd by done.
  split; [exact Hd|].
  destruct (default_entries_always_merged _ ["carol"] [] "dave" Hd)
    as (_ & _ & _ & H).
  apply (H "carol"); [apply list_elem_of_here | discriminate].
Defined.

(** C4.  Adding a label that is a key of the configuration to the labels
    of a pull request never shrinks either output set: with any list of
    labels [ls'] that holds the labels of [ls] and [x] and no other, both
    sets computed for [ls] are included in those computed for [ls']. *)
Theorem matching_label_only_grows (config : gmap string (list string))
    (author : string) (ls ls' : list string) (x : string) :
  is_Some (config !! x) →
  (∀ l, l ∈ ls' ↔ l ∈ ls ∨ l = x) →
  (select_reviewers config ls author).1 ⊆ (select_reviewers config ls' author).1
  ∧ (select_reviewers config ls author).2 ⊆ (select_reviewers config ls' author).2.
Proof.
  intros _ Hls.
  assert (∀ e, merged_entry config ls e → merged_entry config ls' e) as Hm.
  { intros e. apply merged_entry_mono. intros l Hl. apply Hls. by left. }
  split; intros y.
  - rewrite !select_reviewers_reviewers. naive_solver.
  - rewrite !select_reviewers_teams. naive_solver.
Qed.

Lemma matching_label_only_grows_witness :
  is_Some (sample_config !! "bug")
  ∧ (select_reviewers sample_config ["docs"] "alice").2
    ⊆ (select_reviewers sample_config ["docs"; "bug"] "alice").2.
Proof.
  assert (is_Some (sample_config !! "bug")) as Hk.
  { exists ["alice"; "@core-team"]. reflexivity. }
  split; [exact Hk|].
  apply (matching_label_only_grows sample_config "alice"
           ["docs"] ["docs"; "bug"] "bug" Hk).
  intros l. rewrite !elem_of_cons, elem_of_nil. tauto.
Defined.

(** Whatever the trace so far, a run gives the same result and adds the
    same events. *)
Lemma update_reviewers_trace (str_of_list : list string → string)
    (config : gmap string (list string)) (repo : Repository) (pr_id : Z) :
  ∃ r evs, ∀ w,
    update_reviewers str_of_list config repo pr_id w = (r, (w ++ evs)%list).
Proof.
  destruct (get_pull repo pr_id) as [[pr|]|detail] eqn:Hp.
  - pose proof (update_reviewers_resolved str_of_list config repo pr_id pr) as H.
    cbv zeta in H.
    destruct (review_request_answer pr _ _) as [detail|];
      eexists _, _; intros w; by rewrite H.
  - exists (inl TypeError), []. intros w.
    rewrite app_nil_r. by apply update_reviewers_unresolved.
  - exists (inl (GithubException detail)), []. intros w.
    rewrite app_nil_r. by apply update_reviewers_lookup_raises.
Qed.

(** A merged entry is listed once, unless it is the author's login. *)
Lemma merged_entry_listed_once (config : gmap string (list string))
    (labels : list string) (author e : string) :
  merged_entry config labels e →
  if startswith_at e
  then occurrences (slice_from_1 e)
         (elements (select_reviewers config labels author).2) = 1
  else occurrences e (elements (select_reviewers config labels author).1)
       = if decide (e = author) then 0 else 1.
Proof.
  intros Hm. destruct (startswith_at e) eqn:Hs; rewrite occurrences_elements.
  - rewrite decide_True; [done|]. apply select_reviewers_teams. eauto.
  - destruct (decide (e = author)) as [->|Hne].
    + rewrite decide_False; [done|].
      rewrite select_reviewers_reviewers. naive_solver.
    + rewrite decide_True; [done|]. by apply select_reviewers_reviewers.
Qed.

Lemma named_twice_merged (config : gmap string (list string))
    (labels : list string) (e : string) :
  named_twice config labels e → merged_entry config labels e.
Proof. unfold named_twice, merged_entry. naive_solver. Qed.

(** C5, counterexample to the statement as the specification has it:
    "alice" is named by the two matching labels "bug" and "docs", and is
    the author; that login is not listed at all in the resulting set. *)
Lemma author_named_twice_not_listed :
  named_twice {[ "bug" := ["alice"]; "docs" := ["alice"] ]}
    ["bug"; "docs"] "alice"
  ∧ occurrences "alice"
      (elements
         (select_reviewers {[ "bug" := ["alice"]; "docs" := ["alice"] ]}
            ["bug"; "docs"] "alice").1) = 0.
Proof.
  split; [|by vm_compute].
  left. exists "bug", "docs", ["alice"], ["alice"].
  split; [discriminate|].
  split; [apply list_elem_of_here|].
  split; [apply list_elem_of_further, list_elem_of_here|].
  split; [done|]. split; [done|].
  split; apply list_elem_of_here.
Qed.

(** C5, amended.  The selection is deterministic and uses union semantics:
    two lists of labels with the same members give identical output sets,
    a second run on the same inputs returns what the first returned and
    does what it did, and an entry named by two different matching labels
    (or by a label and "default") is listed exactly once in the resulting
    set, except that a plain entry equal to the author's login is not
    listed in [reviewers]. *)
Theorem selection_deterministic_union (str_of_list : list string → string)
    (config : gmap string (list string)) (labels : list string)
    (author : string) :
  (∀ labels', (∀ l, l ∈ labels ↔ l ∈ labels') →
     select_reviewers config labels' author
     = select_reviewers config labels author)
  ∧ (∀ repo pr_id w,
       let first := update_reviewers str_of_list config repo pr_id w in
       let second := update_reviewers str_of_list config repo pr_id first.2 in
       second.1 = first.1
       ∧ ∃ evs, first.2 = (w ++ evs)%list ∧ second.2 = (first.2 ++ evs)%list)
  ∧ (∀ e, named_twice config labels e →
       if startswith_at e
       then occurrences (slice_from_1 e)
              (elements (select_reviewers config labels author).2) = 1
       else occurrences e (elements (select_reviewers config labels author).1)
            = if decide (e = author) then 0 else 1).
Proof.
  split; [|split].
  - intros labels' H. symmetry. by apply select_reviewers_labels_ext.
  - intros repo pr_id w.
    destruct (update_reviewers_trace str_of_list config repo pr_id)
      as (r & evs & H).
    cbv zeta. rewrite (H w). simpl. rewrite (H (w ++ evs)%list). simpl. eauto.
  - intros e He. by apply merged_entry_listed_once, named_twice_merged.
Qed.

Lemma selection_deterministic_union_witness :
  named_twice overlapping_config ["bug"; "docs"] "carol"
  ∧ occurrences "carol"
      (elements (select_reviewers overlapping_config ["bug"; "docs"] "alice").1)
    = 1.
Proof.
  assert (named_twice overlapping_config ["bug"; "docs"] "carol") as H.
  { left. exists "bug", "docs", ["carol"; "@core-team"], ["carol"].
    split; [discriminate|].
    split; [apply list_elem_of_here|].
    split; [apply list_elem_of_further, list_elem_of_here|].
    split; [done|]. split; [done|].
    split; apply list_elem_of_here. }
  split; [exact H|].
  exact (proj2 (proj2 (selection_deterministic_union sample_str_of_list
                         overlapping_config ["bug"; "docs"] "alice"))
           "carol" H).
Defined.

(** C6.  When the lookup of the pull request does not resolve, the process
    ends with status 1, one text has been written to the error stream and
    no review request has been made.  The client raises on line 22, outside
    the [try], and nothing catches the exception: the text is the
    interpreter's traceback of it.  (For a falsy result line 25 raises
    [TypeError], [writable] being called where [write] is meant, to the
    same effect; the line "Unknown PR" is written in neither case.) *)
Theorem unresolved_pull_request_exits_1 (str_of_list : list string → string)
    (int_of_str : string → option Z) (str_of_path : string → string)
    (traceback : exn → string)
    (env : Platform) (script token repo_path pr_id_arg config_arg : string)
    (pr_id : Z) (repo : Repository) (w : list event) :
  int_of_str pr_id_arg = Some pr_id →
  get_repo env token repo_path = Returns (Some repo) →
  path_exists env config_arg = true →
  (∀ pr, get_pull repo pr_id ≠ Returns (Some pr)) →
  (let run := process str_of_list int_of_str str_of_path traceback env
                [script; token; repo_path; pr_id_arg; config_arg] w in
   run.1 = 1%Z
   ∧ (∃ text, stderr_writes run.2 = (stderr_writes w ++ [text])%list)
   ∧ review_requests run.2 = review_requests w
   ∧ ∃ e, run.2 = (w ++ [Stderr (traceback e)])%list
          ∧ match get_pull repo pr_id with
            | Raises detail => e = GithubException detail
            | Returns _ => e = TypeError
            end).
Proof.
  intros Hi Hr He Hp. cbv zeta. unfold process.
  rewrite (main_runs_update_reviewers _ _ _ _ _ _ _ _ _ _ _ _ Hi Hr He).
  assert (∀ e,
            stderr_writes (w ++ [Stderr (traceback e)])
            = (stderr_writes w ++ [traceback e])%list
            ∧ review_requests (w ++ [Stderr (traceback e)]) = review_requests w)
    as Htr.
  { intros e. unfold stderr_writes, review_requests.
    rewrite !omap_app. simpl. by rewrite app_nil_r. }
  destruct (get_pull repo pr_id) as [[pr|]|detail] eqn:Hl.
  - by destruct (Hp pr).
  - rewrite (update_reviewers_unresolved _ _ _ _ _ Hl). simpl.
    destruct (Htr TypeError) as [-> ->]. eauto 10.
  - rewrite (update_reviewers_lookup_raises _ _ _ _ _ _ Hl). simpl.
    destruct (Htr (GithubException detail)) as [-> ->]. eauto 10.
Qed.

Lemma unresolved_pull_request_exits_1_witness :
  get_pull (sample_repository None) 8 = Raises "404 Not Found"
  ∧ (process sample_str_of_list sample_int_of_str sample_str_of_path
       sample_traceback (sample_platform None)
       ["update_reviewers.py"; "token"; "owner/name"; "8"; "reviewers.yml"] []).1
    = 1%Z.
Proof.
  split; [reflexivity|].
  refine (proj1 (unresolved_pull_request_exits_1 sample_str_of_list
                   sample_int_of_str sample_str_of_path sample_traceback
                   (sample_platform None) "update_reviewers.py" "token"
                   "owner/name" "8" "reviewers.yml" 8 (sample_repository None) []
                   eq_refl eq_refl eq_refl _)).
  intros pr H. discriminate H.
Defined.

Lemma string_app_assoc (a b c : string) : (a +:+ b) +:+ c = a +:+ b +:+ c.
Proof.
  induction a as [|x a IH]; [reflexivity|].
  change (String x ((a +:+ b) +:+ c) = String x (a +:+ b +:+ c)).
  by rewrite IH.
Qed.

Lemma cannot_assign_message_contains (pr_id : Z) (detail : string) :
  contains detail (cannot_assign_message pr_id detail).
Proof.
  exists ("Cannot assign review request for PR #" +:+ pretty pr_id +:+ ": "),
    newline.
  unfold cannot_assign_message. by rewrite !string_app_assoc.
Qed.

(** C7.  On a pull request that resolves, when the platform refuses the
    review request the exception is caught where the call is made: one
    line is written to the error stream, it holds the detail of the error,
    and the process ends with status 1; when the request goes through,
    nothing is written to the error stream and the process ends with
    status 0. *)
Theorem review_request_outcome (str_of_list : list string → string)
    (int_of_str : string → option Z) (str_of_path : string → string)
    (env : Platform) (script token repo_path pr_id_arg config_arg : string)
    (pr_id : Z) (repo : Repository) (pr : PullRequest) (w : list event) :
  int_of_str pr_id_arg = Some pr_id →
  get_repo env token repo_path = Returns (Some repo) →
  path_exists env config_arg = true →
  get_pull repo pr_id = Returns (Some pr) →
  (let config := yaml_safe_load env config_arg in
   let rs := requested_reviewers config pr in
   let ts := requested_teams config pr in
   let run := main str_of_list int_of_str str_of_path env
                [script; token; repo_path; pr_id_arg; config_arg] w in
   run = update_reviewers str_of_list config repo pr_id w
   ∧ match review_request_answer pr rs ts with
     | Some detail =>
         run = (inr 1%Z,
                (w ++ [Stdout (attempt_message str_of_list rs ts);
                       ReviewRequest rs ts;
                       Stderr (cannot_assign_message pr_id detail)])%list)
         ∧ stderr_writes run.2
           = (stderr_writes w ++ [cannot_assign_message pr_id detail])%list
         ∧ contains detail (cannot_assign_message pr_id detail)
     | None =>
         run = (inr 0%Z,
                (w ++ [Stdout (attempt_message str_of_list rs ts);
                       ReviewRequest rs ts])%list)
         ∧ stderr_writes run.2 = stderr_writes w
     end).
Proof.
  intros Hi Hr He Hp. cbv zeta.
  rewrite (main_runs_update_reviewers _ _ _ _ _ _ _ _ _ _ _ _ Hi Hr He).
  split; [done|].
  rewrite (update_reviewers_resolved _ _ _ _ _ _ Hp). cbv zeta.
  destruct (review_request_answer pr _ _) as [detail|].
  - split; [done|]. split; [|apply cannot_assign_message_contains].
    simpl. unfold stderr_writes. rewrite omap_app. simpl. done.
  - split; [done|].
    simpl. unfold stderr_writes. rewrite omap_app. simpl. by rewrite app_nil_r.
Qed.

Lemma review_request_outcome_witness :
  (main sample_str_of_list sample_int_of_str sample_str_of_path
     (sample_platform (Some "403 Forbidden"))
     ["update_reviewers.py"; "token"; "owner/name"; "7"; "reviewers.yml"] []).1
  = inr 1%Z.
Proof.
  pose proof (review_request_outcome sample_str_of_list sample_int_of_str
                sample_str_of_path (sample_platform (Some "403 Forbidden"))
                "update_reviewers.py" "token" "owner/name" "7" "reviewers.yml"
                7 (sample_repository (Some "403 Forbidden"))
                (sample_pull_request (Some "403 Forbidden")) []
                eq_refl eq_refl eq_refl eq_refl) as [_ [H _]].
  rewrite H. reflexivity.
Defined.

(** Nothing is read, nothing is selected. *)
Lemma select_reviewers_nothing_merged (config : gmap string (list string))
    (labels : list string) (author : string) :
  (∀ e, ¬ merged_entry config labels e) →
  select_reviewers config labels author = (∅, ∅).
Proof.
  intros Hno.
  destruct (select_reviewers config labels author) as [r t] eqn:E.
  f_equal; apply set_eq; intros x; rewrite elem_of_empty.
  - change r with (r, t).1. rewrite <- E, select_reviewers_reviewers.
    naive_solver.
  - change t with (r, t).2. rewrite <- E, select_reviewers_teams.
    naive_solver.
Qed.

(** C8.  When no label of the pull request is a key of the configuration
    and the configuration has no "default" key, both output sets are empty
    and the review request is made all the same, with the empty list for
    both arguments; the run then ends as the platform answers that
    request. *)
Theorem nothing_selected_still_requested (str_of_list : list string → string)
    (config : gmap string (list string)) (repo : Repository) (pr_id : Z)
    (pr : PullRequest) (w : list event) :
  get_pull repo pr_id = Returns (Some pr) →
  (∀ l, l ∈ labels pr → config !! l = None) →
  config !! "default" = None →
  select_reviewers config (labels pr) (user_login pr) = (∅, ∅)
  ∧ review_requests (update_reviewers str_of_list config repo pr_id w).2
    = (review_requests w ++ [([], [])])%list
  ∧ update_reviewers str_of_list config repo pr_id w
    = match review_request_answer pr [] [] with
      | Some detail =>
          (inr 1%Z,
           (w ++ [Stdout (attempt_message str_of_list [] []);
                  ReviewRequest [] [];
                  Stderr (cannot_assign_message pr_id detail)])%list)
      | None =>
          (inr 0%Z,
           (w ++ [Stdout (attempt_message str_of_list [] []);
                  ReviewRequest [] []])%list)
      end.
Proof.
  intros Hp Hl Hd.
  assert (select_reviewers config (labels pr) (user_login pr) = (∅, ∅)) as Hs.
  { apply select_reviewers_nothing_merged. intros e [(l & es & Hin & Hk & _)|(es & Hk & _)].
    - rewrite (Hl l Hin) in Hk. discriminate.
    - rewrite Hd in Hk. discriminate. }
  assert (update_reviewers str_of_list config repo pr_id w
          = match review_request_answer pr [] [] with
            | Some detail =>
                (inr 1%Z,
                 (w ++ [Stdout (attempt_message str_of_list [] []);
                        ReviewRequest [] [];
                        Stderr (cannot_assign_message pr_id detail)])%list)
            | None =>
                (inr 0%Z,
                 (w ++ [Stdout (attempt_message str_of_list [] []);
                        ReviewRequest [] []])%list)
            end) as Hrun.
  { rewrite (update_reviewers_resolved _ _ _ _ _ _ Hp).
    unfold requested_reviewers, requested_teams. rewrite Hs. simpl.
    by rewrite elements_empty. }
  split; [exact Hs|]. split; [|exact Hrun].
  rewrite Hrun. unfold review_requests.
  destruct (review_request_answer pr [] []); simpl; by rewrite omap_app.
Qed.

Lemma nothing_selected_still_requested_witness :
  review_requests
    (update_reviewers sample_str_of_list ∅ unmapped_repository 4 []).2
  = [([], [])].
Proof.
  refine (proj1 (proj2 (nothing_selected_still_requested sample_str_of_list ∅
                          unmapped_repository 4 unmapped_pull_request []
                          eq_refl _ eq_refl))).
  intros l _. apply lookup_empty.
Defined.

(** C9.  The self-review exclusion takes the author out of [reviewers]
    only and leaves [team_reviewers] as it was: when some entry read is
    the sigil followed by the author's login, that name is in
    [team_reviewers] after the selection. *)
Theorem exclusion_leaves_teams (config : gmap string (list string))
    (labels : list string) (author : string) :
  merged_entry config labels ("@" +:+ author) →
  author ∈ (select_reviewers config labels author).2
  ∧ (select_reviewers config labels author).2 = (merged_sets config labels).2
  ∧ (∀ st, (exclude_author author st).2 = st.2)
  ∧ (author ∉ (select_reviewers config labels author).1).
Proof.
  intros Hm. split; [|split; [|split]].
  - apply select_reviewers_teams. exists ("@" +:+ author). by split.
  - unfold select_reviewers. apply exclude_author_teams.
  - intros st. apply exclude_author_teams.
  - rewrite select_reviewers_reviewers. naive_solver.
Qed.

Lemma exclusion_leaves_teams_witness :
  merged_entry {[ "bug" := ["alice"; "@alice"] ]} ["bug"] ("@" +:+ "alice")
  ∧ "alice" ∈ (select_reviewers {[ "bug" := ["alice"; "@alice"] ]} ["bug"] "alice").2.
Proof.
  assert (merged_entry {[ "bug" := ["alice"; "@alice"] ]} ["bug"] ("@" +:+ "alice"))
    as Hm.
  { left. exists "bug", ["alice"; "@alice"].
    split; [apply list_elem_of_here|]. split; [done|].
    apply list_elem_of_further, list_elem_of_here. }
  split; [exact Hm|].
  exact (proj1 (exclusion_leaves_teams _ ["bug"] "alice" Hm)).
Defined.

(** C10.  Which set an entry goes to is decided by its first character
    alone, and every string is classified: the entry "@" puts the empty
    string in [team_reviewers], the empty entry is put as it is in
    [reviewers], and a selection and a run that read both go through. *)
Theorem degenerate_entries_classified (str_of_list : list string → string)
    (st : sets) (c : ascii) (rest rest' : string) (w : list event) :
  startswith_at (String c rest) = startswith_at (String c rest')
  ∧ (startswith_at (String c rest) = true ↔ c = "@"%char)
  ∧ startswith_at "" = false
  ∧ add_reviewers st ["@"] = (st.1, {[ "" ]} ∪ st.2)
  ∧ add_reviewers st [""] = ({[ "" ]} ∪ st.1, st.2)
  ∧ select_reviewers {[ "default" := ["@"; ""] ]} [] "alice" = ({[ "" ]}, {[ "" ]})
  ∧ update_reviewers str_of_list {[ "default" := ["@"; ""] ]}
      (sample_repository None) 7 w
    = (inr 0%Z,
       (w ++ [Stdout (attempt_message str_of_list [""] [""]);
              ReviewRequest [""] [""]])%list).
Proof.
  split_and!.
  - reflexivity.
  - simpl. apply Ascii.eqb_eq.
  - reflexivity.
  - reflexivity.
  - reflexivity.
  - by vm_compute.
  - rewrite (update_reviewers_resolved str_of_list _ (sample_repository None) 7
               (sample_pull_request None) w eq_refl).
    reflexivity.
Qed.

(** * Further properties *)

(** X1.  What the selection returns, in full: a login is in [reviewers]
    exactly when it is an entry read without sigil and is not the author;
    a name is in [team_reviewers] exactly when it is an entry read with the
    sigil, minus the sigil. *)
Theorem selection_characterised (config : gmap string (list string))
    (labels : list string) (author x : string) :
  (x ∈ (select_reviewers config labels author).1
   ↔ merged_entry config labels x ∧ startswith_at x = false ∧ x ≠ author)
  ∧ (x ∈ (select_reviewers config labels author).2
     ↔ ∃ e, merged_entry config labels e
            ∧ startswith_at e = true ∧ x = slice_from_1 e).
Proof.
  split; [apply select_reviewers_reviewers | apply select_reviewers_teams].
Qed.

(** X5.  How the script starts.  Handed a number of arguments other than
    four, it writes the usage line to the error stream and ends with
    status 1.  Handed four arguments of which the third is a number: when
    the lookup of the repository raises (line 66), the exception leaves
    the script uncaught with nothing written by the script; when the
    repository resolves and the configuration path does not exist, it
    writes that the configuration is not found and ends with status 1.  No
    review request is made in any of these cases. *)
Theorem startup_errors (str_of_list : list string → string)
    (int_of_str : string → option Z) (str_of_path : string → string)
    (env : Platform) (w : list event) :
  (∀ argv, length argv ≠ 5 →
     main str_of_list int_of_str str_of_path env argv w
     = (inr 1%Z,
        (w ++ [Stderr ("usage: <token> <repo_path> <pr_id> <config_path>"
                       +:+ newline)])%list))
  ∧ (∀ script token repo_path pr_id_arg config_arg pr_id detail,
       int_of_str pr_id_arg = Some pr_id →
       get_repo env token repo_path = Raises detail →
       main str_of_list int_of_str str_of_path env
         [script; token; repo_path; pr_id_arg; config_arg] w
       = (inl (GithubException detail), w))
  ∧ (∀ script token repo_path pr_id_arg config_arg pr_id repo,
       int_of_str pr_id_arg = Some pr_id →
       get_repo env token repo_path = Returns (Some repo) →
       path_exists env config_arg = false →
       main str_of_list int_of_str str_of_path env
         [script; token; repo_path; pr_id_arg; config_arg] w
       = (inr 1%Z,
          (w ++ [Stderr ("Config " +:+ String "034"%char (str_of_path config_arg)
                         +:+ String "034"%char (" not found!" +:+ newline))])%list)).
Proof.
  split; [|split].
  - intros argv Hlen.
    destruct argv as [|a0 [|a1 [|a2 [|a3 [|a4 [|a5 argv]]]]]]; try done.
  - intros script token repo_path pr_id_arg config_arg pr_id detail Hi Hr.
    unfold main. by rewrite Hi, Hr.
  - intros script token repo_path pr_id_arg config_arg pr_id repo Hi Hr He.
    unfold main. by rewrite Hi, Hr, He.
Qed.

Lemma startup_errors_witness :
  length ["update_reviewers.py"; "token"] ≠ 5
  ∧ (main sample_str_of_list sample_int_of_str sample_str_of_path
       (sample_platform None) ["update_reviewers.py"; "token"] []).1
    = inr 1%Z.
Proof.
  assert (length ["update_reviewers.py"; "token"] ≠ 5) as Hlen by discriminate.
  split; [exact Hlen|].
  rewrite (proj1 (startup_errors sample_str_of_list sample_int_of_str
                    sample_str_of_path (sample_platform None) [])
             ["update_reviewers.py"; "token"] Hlen).
  reflexivity.
Defined.

(** Two pairs of sets with the same members are the same pair. *)
Lemma sets_ext (a b : sets) :
  (∀ x, x ∈ a.1 ↔ x ∈ b.1) → (∀ x, x ∈ a.2 ↔ x ∈ b.2) → a = b.
Proof.
  destruct a as [a1 a2], b as [b1 b2]; simpl. intros H1 H2.
  f_equal; by apply set_eq.
Qed.

(** The selection only depends on which entries are read. *)
Lemma select_reviewers_merged_ext (config config' : gmap string (list string))
    (ls ls' : list string) (author : string) :
  (∀ e, merged_entry config ls e ↔ merged_entry config' ls' e) →
  select_reviewers config ls author = select_reviewers config' ls' author.
Proof.
  intros Hm. apply sets_ext; intros x.
  - rewrite !select_reviewers_reviewers, Hm. done.
  - rewrite !select_reviewers_teams. setoid_rewrite Hm. done.
Qed.

Lemma startswith_at_inv (e : string) :
  startswith_at e = true → e = "@" +:+ slice_from_1 e.
Proof.
  destruct e as [|c rest]; simpl; [done|].
  intros ->%Ascii.eqb_eq. reflexivity.
Qed.

Lemma select_reviewers_teams_sigil (config : gmap string (list string))
    (labels : list string) (author x : string) :
  x ∈ (select_reviewers config labels author).2
  ↔ merged_entry config labels ("@" +:+ x).
Proof.
  rewrite select_reviewers_teams. split.
  - intros (e & Hm & Hs & ->). by rewrite <- startswith_at_inv.
  - intros Hm. exists ("@" +:+ x). by split.
Qed.

(** X2.  [add_reviewers] in closed form: it adds to [reviewers] the entries
    without sigil and to [team_reviewers] the entries with the sigil, minus
    the sigil, and takes nothing out of either set. *)
Theorem add_reviewers_as_unions (st : sets) (es : list string) :
  add_reviewers st es
  = (st.1 ∪ list_to_set (filter (λ e, startswith_at e = false) es),
     st.2 ∪ list_to_set
              (slice_from_1 <$> filter (λ e, startswith_at e = true) es))
  ∧ st.1 ⊆ (add_reviewers st es).1
  ∧ st.2 ⊆ (add_reviewers st es).2.
Proof.
  split; [|split].
  - apply sets_ext; intros x; simpl.
    + rewrite add_reviewers_reviewers, elem_of_union, elem_of_list_to_set,
        list_elem_of_filter. naive_solver.
    + rewrite add_reviewers_teams, elem_of_union, elem_of_list_to_set,
        list_elem_of_fmap. setoid_rewrite list_elem_of_filter. naive_solver.
  - intros x Hx. apply add_reviewers_reviewers. by left.
  - intros x Hx. apply add_reviewers_teams. by left.
Qed.

(** X3.  The order of the entries and their repetitions do not matter to
    [add_reviewers]: two lists with the same members give the same sets,
    and merging a list that was already merged changes nothing. *)
Theorem add_reviewers_order_and_repeats (st : sets) (es es' : list string) :
  (∀ e, e ∈ es ↔ e ∈ es') →
  add_reviewers st es = add_reviewers st es'
  ∧ add_reviewers (add_reviewers st es) es' = add_reviewers st es
  ∧ add_reviewers st (es ++ es') = add_reviewers st es.
Proof.
  intros H. split; [|split]; apply sets_ext; intros x.
  - rewrite !add_reviewers_reviewers, H. done.
  - rewrite !add_reviewers_teams. setoid_rewrite H. done.
  - rewrite !add_reviewers_reviewers, H. naive_solver.
  - rewrite !add_reviewers_teams. setoid_rewrite H. naive_solver.
  - rewrite !add_reviewers_reviewers, elem_of_app, H. naive_solver.
  - rewrite !add_reviewers_teams. setoid_rewrite elem_of_app.
    setoid_rewrite H. naive_solver.
Qed.

Lemma add_reviewers_order_and_repeats_witness :
  add_reviewers (∅, ∅) ["bob"; "@qa"; "bob"] = add_reviewers (∅, ∅) ["@qa"; "bob"].
Proof.
  apply (add_reviewers_order_and_repeats (∅, ∅) ["bob"; "@qa"; "bob"] ["@qa"; "bob"]).
  intros e. rewrite !elem_of_cons, elem_of_nil. tauto.
Defined.

(** X4.  A name is in [team_reviewers] exactly when the name with the
    sigil in front is an entry that the selection reads. *)
Theorem team_iff_sigil_entry (config : gmap string (list string))
    (labels : list string) (author x : string) :
  x ∈ (select_reviewers config labels author).2
  ↔ merged_entry config labels ("@" +:+ x).
Proof. apply select_reviewers_teams_sigil. Qed.

(** X6.  A label that is not a key of the configuration is ignored: with
    or without it, wherever it stands among the labels, the selection is
    the same. *)
Theorem unmapped_label_ignored (config : gmap string (list string))
    (author : string) (ls ls' : list string) (x : string) :
  config !! x = None →
  (∀ l, l ∈ ls' ↔ l ∈ ls ∨ l = x) →
  select_reviewers config ls' author = select_reviewers config ls author.
Proof.
  intros Hx Hls. apply select_reviewers_merged_ext. intros e.
  unfold merged_entry. split.
  - intros [(l & es & Hl & Hk & He)|Hd]; [|by right].
    apply Hls in Hl as [Hl| ->]; [left; eauto|congruence].
  - intros [(l & es & Hl & Hk & He)|Hd]; [|by right].
    left. exists l, es. split; [apply Hls; by left|done].
Qed.

Lemma unmapped_label_ignored_witness :
  sample_config !! "docs" = None
  ∧ select_reviewers sample_config ["docs"; "bug"] "alice"
    = select_reviewers sample_config ["bug"] "alice".
Proof.
  assert (sample_config !! "docs" = None) as Hx by reflexivity.
  split; [exact Hx|].
  apply (unmapped_label_ignored sample_config "alice" ["bug"] ["docs"; "bug"]
           "docs" Hx).
  intros l. rewrite !elem_of_cons, elem_of_nil. tauto.
Defined.

(** X7.  A pull request label that is itself named "default" changes
    nothing: the entries under the key "default" are read once, with the
    label or without it. *)
Theorem default_label_redundant (config : gmap string (list string))
    (author : string) (ls ls' : list string) :
  (∀ l, l ∈ ls' ↔ l ∈ ls ∨ l = "default") →
  select_reviewers config ls' author = select_reviewers config ls author.
Proof.
  intros Hls. apply select_reviewers_merged_ext. intros e.
  unfold merged_entry. split.
  - intros [(l & es & Hl & Hk & He)|Hd]; [|by right].
    apply Hls in Hl as [Hl| ->]; [left|right]; eauto.
  - intros [(l & es & Hl & Hk & He)|Hd]; [|by right].
    left. exists l, es. split; [apply Hls; by left|done].
Qed.

Lemma default_label_redundant_witness :
  select_reviewers sample_config ["bug"; "default"] "alice"
  = select_reviewers sample_config ["bug"] "alice".
Proof.
  apply (default_label_redundant sample_config "alice" ["bug"] ["bug"; "default"]).
  intros l. rewrite !elem_of_cons, elem_of_nil. tauto.
Defined.

(** X8.  The self-review exclusion takes out the author and nothing else:
    [reviewers] is the merged set without the author, and the selection is
    the merged sets themselves when no plain entry read is the author; the
    teams are the same whoever the author is. *)
Theorem exclusion_only_removes_author (config : gmap string (list string))
    (labels : list string) (author other : string) :
  select_reviewers config labels author
  = ((merged_sets config labels).1 ∖ {[ author ]}, (merged_sets config labels).2)
  ∧ (author ∉ (merged_sets config labels).1 →
     select_reviewers config labels author = merged_sets config labels)
  ∧ (select_reviewers config labels author).2
    = (select_reviewers config labels other).2
  ∧ (select_reviewers config labels author).1 ∖ {[ other ]}
    = (select_reviewers config labels other).1 ∖ {[ author ]}.
Proof.
  split; [|split; [|split]].
  - apply sets_ext; intros x; simpl.
    + rewrite select_reviewers_reviewers, elem_of_difference,
        merged_sets_reviewers, elem_of_singleton. naive_solver.
    + unfold select_reviewers. by rewrite exclude_author_teams.
  - intros Hn. unfold select_reviewers, exclude_author. by rewrite decide_False.
  - unfold select_reviewers. by rewrite !exclude_author_teams.
  - apply set_eq. intros x.
    rewrite !elem_of_difference, !select_reviewers_reviewers,
      !elem_of_singleton. naive_solver.
Qed.

Lemma merge_key_checked_merge_label (config : gmap string (list string))
    (st : sets) (key : string) :
  merge_key_checked config st key = Some (merge_label config st key).
Proof.
  unfold merge_key_checked, merge_label, dict_contains, dict_getitem.
  destruct (config !! key) as [es|] eqn:Hk.
  - rewrite bool_decide_eq_true_2; [done|by eexists].
  - rewrite bool_decide_eq_false_2; [done|]. by intros [? ?].
Qed.

Lemma label_loop_checked_foldl (config : gmap string (list string))
    (labels : list string) (st : sets) :
  label_loop_checked config st labels
  = Some (foldl (merge_label config) st labels).
Proof.
  revert st. induction labels as [|l ls IH]; intros st; simpl; [done|].
  rewrite merge_key_checked_merge_label. simpl. apply IH.
Qed.

(** X9.  No [KeyError] can be raised by lines 29-40: with the indexing of
    the configuration and [set.remove] as operations that fail on a
    missing key or member, the guards of the source keep every one of them
    from failing, for every configuration, list of labels and author, and
    what is computed is the selection. *)
Theorem selection_never_raises_key_error (config : gmap string (list string))
    (labels : list string) (author : string) :
  select_reviewers_checked config labels author
  = Some (select_reviewers config labels author).
Proof.
  unfold select_reviewers_checked.
  rewrite label_loop_checked_foldl. simpl.
  rewrite merge_key_checked_merge_label. simpl.
  change (merge_label config (foldl (merge_label config) (∅, ∅) labels) "default")
    with (merged_sets config labels).
  unfold select_reviewers, exclude_author, set_remove.
  destruct (decide (author ∈ (merged_sets config labels).1)) as [Hin|Hout];
    reflexivity.
Qed.

(** X11.  The two lists handed to the platform hold no name twice, no
    reviewer in them begins with the sigil, and the author is not among
    the reviewers. *)
Theorem request_lists_well_formed (config : gmap string (list string))
    (pr : PullRequest) :
  NoDup (requested_reviewers config pr)
  ∧ NoDup (requested_teams config pr)
  ∧ (∀ x, x ∈ requested_reviewers config pr →
          startswith_at x = false ∧ x ≠ user_login pr
          ∧ merged_entry config (labels pr) x)
  ∧ (∀ x, x ∈ requested_teams config pr →
          merged_entry config (labels pr) ("@" +:+ x)).
Proof.
  unfold requested_reviewers, requested_teams.
  split; [apply NoDup_elements|]. split; [apply NoDup_elements|]. split.
  - intros x. rewrite elem_of_elements, select_reviewers_reviewers. tauto.
  - intros x. rewrite elem_of_elements. apply select_reviewers_teams_sigil.
Qed.

(** X12.  With four arguments of which the third is not a number, the
    script ends by an uncaught [ValueError] before it looks anything up:
    nothing is written, and neither a missing repository nor a missing
    configuration file is reported. *)
Theorem bad_pr_id_raises_first (str_of_list : list string → string)
    (int_of_str : string → option Z) (str_of_path : string → string)
    (env : Platform) (script token repo_path pr_id_arg config_arg : string)
    (w : list event) :
  int_of_str pr_id_arg = None →
  main str_of_list int_of_str str_of_path env
    [script; token; repo_path; pr_id_arg; config_arg] w
  = (inl ValueError, w).
Proof. intros Hi. unfold main. by rewrite Hi. Qed.

Lemma bad_pr_id_raises_first_witness :
  sample_int_of_str "seven" = None
  ∧ main sample_str_of_list sample_int_of_str sample_str_of_path
      (sample_platform None)
      ["update_reviewers.py"; "token"; "owner/name"; "seven"; "reviewers.yml"] []
    = (inl ValueError, []).
Proof.
  assert (sample_int_of_str "seven" = None) as Hi by reflexivity.
  split; [exact Hi|].
  exact (bad_pr_id_raises_first sample_str_of_list sample_int_of_str
           sample_str_of_path (sample_platform None) "update_reviewers.py"
           "token" "owner/name" "seven" "reviewers.yml" [] Hi).
Defined.

(** X13.  The selection grows with the configuration: when every key of
    [config] is a key of [config'] whose list holds at least the same
    entries, both sets selected under [config] are included in those
    selected under [config']. *)
Theorem selection_grows_with_config (config config' : gmap string (list string))
    (labels : list string) (author : string) :
  (∀ key es, config !! key = Some es →
     ∃ es', config' !! key = Some es' ∧ ∀ e, e ∈ es → e ∈ es') →
  (select_reviewers config labels author).1
    ⊆ (select_reviewers config' labels author).1
  ∧ (select_reviewers config labels author).2
    ⊆ (select_reviewers config' labels author).2.
Proof.
  intros Hsub.
  assert (∀ e, merged_entry config labels e → merged_entry config' labels e)
    as Hm.
  { intros e [(l & es & Hl & Hk & He)|(es & Hk & He)];
      destruct (Hsub _ _ Hk) as (es' & Hk' & Hes); [left|right]; eauto 10. }
  split; intros x.
  - rewrite !select_reviewers_reviewers. naive_solver.
  - rewrite !select_reviewers_teams. naive_solver.
Qed.

Lemma selection_grows_with_config_witness :
  (select_reviewers {[ "bug" := ["carol"] ]} ["bug"] "alice").1
  ⊆ (select_reviewers {[ "bug" := ["dave"; "carol"]; "default" := ["bob"] ]}
       ["bug"] "alice").1.
Proof.
  apply (selection_grows_with_config {[ "bug" := ["carol"] ]}
           {[ "bug" := ["dave"; "carol"]; "default" := ["bob"] ]}
           ["bug"] "alice").
  intros key es Hk. apply lookup_singleton_Some in Hk as [<- <-].
  exists ["dave"; "carol"]. split; [reflexivity|].
  intros e He. by apply list_elem_of_further.
Defined.

(** X14.  The labels compose by union: what is selected for two lists of
    labels put together is, set by set, the union of what is selected for
    each. *)
Theorem selection_of_joined_labels (config : gmap string (list string))
    (ls1 ls2 : list string) (author : string) :
  select_reviewers config (ls1 ++ ls2) author
  = ((select_reviewers config ls1 author).1
       ∪ (select_reviewers config ls2 author).1,
     (select_reviewers config ls1 author).2
       ∪ (select_reviewers config ls2 author).2).
Proof.
  assert (∀ e, merged_entry config (ls1 ++ ls2) e
               ↔ merged_entry config ls1 e ∨ merged_entry config ls2 e) as Hm.
  { intros e. unfold merged_entry. setoid_rewrite elem_of_app. naive_solver. }
  apply sets_ext; intros x; simpl; rewrite elem_of_union.
  - rewrite !select_reviewers_reviewers, Hm. naive_solver.
  - rewrite !select_reviewers_teams. setoid_rewrite Hm. naive_solver.
Qed.
